(** * Raw aliasing versus scoped ownership: the two pointer demos

    A shallow embedding of [dangling_pointer.cpp] and
    [unique_pointer_demo.cpp].  Each statement of the two [main] routines is
    a Rocq function over an explicit program state: the local variables of
    [main], the free store, the text sent to [std::cout], and a record of
    the memory operations performed (the view a memory checker has of the
    run).  What the C++ source leaves to its environment is a parameter of
    the model: the address [operator new] hands out (or its failure), and
    what a read of released storage does. *)

From Stdlib Require Import Ascii.
From stdpp Require Import base option list gmap strings.

Open Scope Z_scope.

(** ** The free store, the output stream and the run-time environment *)

Module Mem.

(** A pointer value is a machine address; [nullptr] is address zero. *)
Abbreviation addr := Z.
Definition nullptr : addr := 0.

(** The free store maps every address ever handed out to the state of its
    [int] cell: holding a value, or released by [delete]. *)
Inductive cell :=
| Live (v : Z)
| Released.

Abbreviation heap := (gmap Z cell).

(** How a checker classifies a read through a pointer. *)
Inductive validity :=
| Valid
| UseAfterRelease
| Unallocated.

(** The memory operations of a run, in program order.  A read carries the
    source line of the dereference expression that performs it. *)
Inductive event :=
| EvNew (a : addr) (v : Z)
| EvLoad (line : nat) (a : addr) (ok : validity)
| EvDelete (a : addr).

(** What [operator<<] inserts into [std::cout]: a string literal, a
    pointer value (its text is implementation-defined), an [int], or
    [std::endl]. *)
Inductive token :=
| Str (s : string)
| Ptr (a : addr)
| Int (v : Z)
| Endl.

(** The line feed of the ["\n"] escapes in the string literals. *)
Definition LF : string := String "010"%char EmptyString.

Record world := World {
  store : heap;
  cout : list token;
  events : list event
}.

Definition world0 : world := World ∅ [] [].

Inductive exn := bad_alloc.

Inductive fault :=
| BadRead (line : nat) (a : addr) (why : validity)
| BadDelete (a : addr)
| ScopeError.

(** A computation ends normally, by an exception nobody catches, or in a
    trap at an operation whose behaviour is undefined.  Each case keeps the
    world as it was at that moment. *)
Inductive outcome (A : Type) :=
| Ok (x : A) (w : world)
| Uncaught (e : exn) (w : world)
| Trap (f : fault) (w : world).
Arguments Ok {A} x w.
Arguments Uncaught {A} e w.
Arguments Trap {A} f w.

Definition final_world {A} (o : outcome A) : world :=
  match o with Ok _ w | Uncaught _ w | Trap _ w => w end.

(** The environment of a run.  [operator_new h] is the address the
    allocation function returns with the store in state [h], or [None] when
    it fails (the throwing form used by both programs then raises
    [std::bad_alloc]).  [invalid_read a] is what reading an [int] at [a]
    does when no live cell is there: [Some v] when the read goes through
    and finds [v], [None] when the access traps, as it does in an
    instrumented build. *)
Record platform := Platform {
  operator_new : heap → option addr;
  invalid_read : addr → option Z
}.

(** The guarantee of the throwing allocation function: the address is not
    null and is not that of a cell still in use. *)
Definition conforming (p : platform) : Prop :=
  ∀ (h : heap) a, operator_new p h = Some a →
    a ≠ nullptr ∧ ∀ v, h !! a ≠ Some (Live v).

Definition M (A : Type) : Type := world → outcome A.

Definition ret {A} (x : A) : M A := λ w, Ok x w.

Definition bind {A B} (m : M A) (k : A → M B) : M B :=
  λ w, match m w with
       | Ok x w' => k x w'
       | Uncaught e w' => Uncaught e w'
       | Trap f w' => Trap f w'
       end.

Declare Scope mem_scope.
Notation "x ← m ; k" := (bind m (λ x, k))
  (at level 20, m at level 100, k at level 200) : mem_scope.
Notation "m ;; k" := (bind m (λ _, k))
  (at level 100, k at level 200, right associativity) : mem_scope.
Delimit Scope mem_scope with mem.
Open Scope mem_scope.

(** [std::cout << t1 << ... << tn] *)
Definition print (ts : list token) : M unit :=
  λ w, Ok () (World (store w) (cout w ++ ts) (events w)).

(** A local variable that is in scope. *)
Definition var {A} (x : option A) : M A :=
  λ w, match x with Some v => Ok v w | None => Trap ScopeError w end.

(** The declaration of a local variable: its name is not in scope yet. *)
Definition fresh_name {A} (x : option A) : M unit :=
  λ w, match x with None => Ok () w | Some _ => Trap ScopeError w end.

Section Operations.
Variable p : platform.

(** [new int{v}] *)
Definition new_int (v : Z) : M addr :=
  λ w, match operator_new p (store w) with
       | None => Uncaught bad_alloc w
       | Some a =>
           Ok a (World (<[a := Live v]> (store w)) (cout w)
                       (events w ++ [EvNew a v]))
       end.

(** [*q], the dereference written on source line [line]. *)
Definition load (line : nat) (q : addr) : M Z :=
  λ w, match store w !! q with
       | Some (Live v) =>
           Ok v (World (store w) (cout w) (events w ++ [EvLoad line q Valid]))
       | other =>
           let why := match other with
                      | Some _ => UseAfterRelease
                      | None => Unallocated
                      end in
           let w' := World (store w) (cout w)
                           (events w ++ [EvLoad line q why]) in
           match invalid_read p q with
           | Some v => Ok v w'
           | None => Trap (BadRead line q why) w'
           end
       end.

(** [delete q]: nothing for a null pointer; otherwise the cell must be
    live, and is released. *)
Definition delete_ (q : addr) : M unit :=
  λ w, if decide (q = nullptr) then Ok () w
       else match store w !! q with
            | Some (Live _) =>
                Ok () (World (<[q := Released]> (store w)) (cout w)
                             (events w ++ [EvDelete q]))
            | _ => Trap (BadDelete q) w
            end.

End Operations.

(** Running a sequence of statements over the local variables. *)
Fixpoint exec {F} (prog : list (F → M F)) (f : F) : M F :=
  match prog with
  | [] => ret f
  | s :: rest => f' ← s f; exec rest f'
  end.

(** How the process ends: [main]'s return value is the exit status; an
    uncaught exception or a trap ends it abnormally. *)
Inductive termination :=
| Exited (status : Z)
| Aborted.

Definition process_end (o : outcome Z) : termination :=
  match o with
  | Ok status _ => Exited status
  | _ => Aborted
  end.

Definition is_load (e : event) : bool :=
  match e with EvLoad _ _ _ => true | _ => false end.

Definition is_invalid (e : event) : bool :=
  match e with
  | EvLoad _ _ Valid => false
  | EvLoad _ _ _ => true
  | _ => false
  end.

Definition is_delete (e : event) : bool :=
  match e with EvDelete _ => true | _ => false end.

Definition is_live (h : heap) (a : addr) : bool :=
  match h !! a with Some (Live _) => true | _ => false end.

End Mem.

Import Mem.

(** ** dangling_pointer.cpp *)

Module DanglingPointer.

(** The locals of [main]; [None] before the declaration. *)
Record frame := Frame {
  pointer1 : option addr;
  pointer2 : option addr
}.

Definition frame0 : frame := Frame None None.

Section Main.
Variable p : platform.

(** [int* pointer1 = new int{67};] *)
Definition line9 (f : frame) : M frame :=
  fresh_name (pointer1 f);;
  a ← new_int p 67;
  ret (Frame (Some a) (pointer2 f)).

(** [int* pointer2 = pointer1;] *)
Definition line10 (f : frame) : M frame :=
  fresh_name (pointer2 f);;
  p1 ← var (pointer1 f);
  ret (Frame (pointer1 f) (Some p1)).

(** [if (pointer1 != nullptr) { ... }], lines 13 to 17. *)
Definition line13 (f : frame) : M frame :=
  p1 ← var (pointer1 f);
  if decide (p1 ≠ nullptr) then
    print [Str ("Allocation succeeded." +:+ LF)];;
    print [Str "pointer1: "; Ptr p1; Str " -> "];;
    v1 ← load p 15 p1;
    print [Int v1; Endl];;
    p2 ← var (pointer2 f);
    print [Str "pointer2: "; Ptr p2; Str " -> "];;
    v2 ← load p 16 p2;
    print [Int v2; Endl];;
    ret f
  else ret f.

(** [delete pointer1;] *)
Definition line19 (f : frame) : M frame :=
  p1 ← var (pointer1 f);
  delete_ p1;;
  ret f.

(** [pointer1 = nullptr;] *)
Definition line20 (f : frame) : M frame :=
  var (pointer1 f);;
  ret (Frame (Some nullptr) (pointer2 f)).

(** The output statement of lines 24 to 27.  The operands of [<<] are
    evaluated left to right, so the pointer is printed before [*pointer2]
    on line 25 is read. *)
Definition line24 (f : frame) : M frame :=
  p2 ← var (pointer2 f);
  print [Str "pointer2 after delete: "; Ptr p2; Str " -> "];;
  v ← load p 25 p2;
  print [Int v; Str "  (undefined behavior — for demonstration only!)"; Endl];;
  ret f.

Definition before_release : list (frame → M frame) := [line9; line10; line13].
Definition release : list (frame → M frame) := [line19; line20].
Definition body : list (frame → M frame) :=
  before_release ++ release ++ [line24].

(** [int main()]: the body, then [return 0;] on line 29. *)
Definition main : M Z :=
  exec body frame0;;
  ret 0.

End Main.
End DanglingPointer.

(** ** unique_pointer_demo.cpp *)

Module UniquePointerDemo.

(** [std::unique_ptr<int>]: the stored pointer, null in an empty handle. *)
Record unique_ptr := UniquePtr { get : addr }.

(** The locals of [main]; [None] outside the variable's lifetime. *)
Record frame := Frame {
  pointer1 : option unique_ptr;
  pointer2 : option unique_ptr
}.

Definition frame0 : frame := Frame None None.

(** [explicit operator bool]: does the handle hold a cell? *)
Definition to_bool (u : unique_ptr) : bool := bool_decide (get u ≠ nullptr).

(** The move constructor: the new handle takes the stored pointer, and the
    source gives it up.  The result is the new handle and the source as
    the move leaves it. *)
Definition move_construct (src : unique_ptr) : unique_ptr * unique_ptr :=
  (UniquePtr (get src), UniquePtr nullptr).

Section Main.
Variable p : platform.

(** [std::make_unique<int>(v)] *)
Definition make_unique (v : Z) : M unique_ptr :=
  a ← new_int p v;
  ret (UniquePtr a).

(** [*u], written on source line [line]. *)
Definition deref (line : nat) (u : unique_ptr) : M Z :=
  load p line (get u).

(** The destructor: the default deleter runs [delete] on a stored pointer
    that is not null. *)
Definition destroy (u : unique_ptr) : M unit :=
  if decide (get u ≠ nullptr) then delete_ (get u) else ret ().

(** [std::unique_ptr<int> pointer1 = std::make_unique<int>(67);] *)
Definition line9 (f : frame) : M frame :=
  fresh_name (pointer1 f);;
  u ← make_unique 67;
  ret (Frame (Some u) (pointer2 f)).

(** The output statement of lines 12 and 13. *)
Definition line12 (f : frame) : M frame :=
  u ← var (pointer1 f);
  print [Str "pointer1 -> "; Ptr (get u); Str " : value = "];;
  v ← deref 13 u;
  print [Int v; Endl];;
  ret f.

(** [std::unique_ptr<int> pointer2 = std::move(pointer1);] *)
Definition line16 (f : frame) : M frame :=
  fresh_name (pointer2 f);;
  u1 ← var (pointer1 f);
  let '(u2, u1') := move_construct u1 in
  ret (Frame (Some u1') (Some u2)).

(** [if (!pointer1) { ... }], lines 18 to 20. *)
Definition line18 (f : frame) : M frame :=
  u1 ← var (pointer1 f);
  if negb (to_bool u1) then
    print [Str ("pointer1 is now null after move" +:+ LF)];;
    ret f
  else ret f.

(** The output statement of lines 22 and 23. *)
Definition line22 (f : frame) : M frame :=
  u2 ← var (pointer2 f);
  print [Str "pointer2 -> "; Ptr (get u2); Str " : value = "];;
  v ← deref 23 u2;
  print [Int v; Endl];;
  ret f.

(** Leaving [main] at [return 0;] on line 26 ends the lifetime of the
    locals in the reverse order of their declarations. *)
Definition end_of_pointer2 (f : frame) : M frame :=
  u ← var (pointer2 f);
  destroy u;;
  ret (Frame (pointer1 f) None).

Definition end_of_pointer1 (f : frame) : M frame :=
  u ← var (pointer1 f);
  destroy u;;
  ret (Frame None (pointer2 f)).

Definition body : list (frame → M frame) :=
  [line9; line12; line16; line18; line22].
Definition scope_exit : list (frame → M frame) :=
  [end_of_pointer2; end_of_pointer1].
Definition steps : list (frame → M frame) := body ++ scope_exit.

(** [int main()] *)
Definition main : M Z :=
  exec steps frame0;;
  ret 0.

End Main.

(** A handle whose lifetime has begun and not yet ended. *)
Definition in_scope (f : frame) (u : unique_ptr) : Prop :=
  pointer1 f = Some u ∨ pointer2 f = Some u.

(** The number of live handles that hold the cell at [a]. *)
Definition holds (a : addr) (h : option unique_ptr) : nat :=
  match h with
  | Some u => if decide (get u = a) then 1 else 0
  | None => 0
  end.

Definition owners (f : frame) (a : addr) : nat :=
  (holds a (pointer1 f) + holds a (pointer2 f))%nat.

(** Single ownership: every live cell has a non-null address and exactly
    one live handle holding it, and a handle holds nothing but a live
    cell. *)
Definition single_owner (f : frame) (w : world) : Prop :=
  (∀ a, is_live (store w) a = true → a ≠ nullptr ∧ owners f a = 1%nat) ∧
  (∀ u, in_scope f u → get u ≠ nullptr → is_live (store w) (get u) = true).

End UniquePointerDemo.

(** A platform with one slot of storage at address 4096. *)
Definition arena (on_invalid : addr → option Z) : platform :=
  Platform (λ h, if is_live h 4096 then None else Some 4096) on_invalid.

(** An instrumented build: an invalid read traps. *)
Definition checked : platform := arena (λ _, None).

(** A plain build: an invalid read goes through and finds some value. *)
Definition plain : platform := arena (λ _, Some 0).


Lemma arena_conforming r : conforming (arena r).
Proof.
  intros h a. unfold arena, is_live, operator_new.
  destruct (h !! 4096) as [[v|]|] eqn:E; intros H; simplify_eq;
    (split; [unfold nullptr; lia | intros v'; rewrite E; done]).
Qed.

(** The two programs on the two platforms. *)
Example dangling_plain :
  DanglingPointer.main plain world0 =
  Ok 0
    (World (<[4096 := Released]> ∅)
       [Str ("Allocation succeeded." +:+ LF);
        Str "pointer1: "; Ptr 4096; Str " -> "; Int 67; Endl;
        Str "pointer2: "; Ptr 4096; Str " -> "; Int 67; Endl;
        Str "pointer2 after delete: "; Ptr 4096; Str " -> "; Int 0;
        Str "  (undefined behavior — for demonstration only!)"; Endl]
       [EvNew 4096 67; EvLoad 15 4096 Valid; EvLoad 16 4096 Valid;
        EvDelete 4096; EvLoad 25 4096 UseAfterRelease]).
Proof. vm_compute. reflexivity. Qed.

Example dangling_checked :
  DanglingPointer.main checked world0 =
  Trap (BadRead 25 4096 UseAfterRelease)
    (World (<[4096 := Released]> ∅)
       [Str ("Allocation succeeded." +:+ LF);
        Str "pointer1: "; Ptr 4096; Str " -> "; Int 67; Endl;
        Str "pointer2: "; Ptr 4096; Str " -> "; Int 67; Endl;
        Str "pointer2 after delete: "; Ptr 4096; Str " -> "]
       [EvNew 4096 67; EvLoad 15 4096 Valid; EvLoad 16 4096 Valid;
        EvDelete 4096; EvLoad 25 4096 UseAfterRelease]).
Proof. vm_compute. reflexivity. Qed.

Example unique_checked :
  UniquePointerDemo.main checked world0 =
  Ok 0
    (World (<[4096 := Released]> ∅)
       [Str "pointer1 -> "; Ptr 4096; Str " : value = "; Int 67; Endl;
        Str ("pointer1 is now null after move" +:+ LF);
        Str "pointer2 -> "; Ptr 4096; Str " : value = "; Int 67; Endl]
       [EvNew 4096 67; EvLoad 13 4096 Valid; EvLoad 23 4096 Valid;
        EvDelete 4096]).
Proof. vm_compute. reflexivity. Qed.

(** Without storage left, [new] raises and nothing is printed. *)
Example dangling_out_of_memory :
  DanglingPointer.main (Platform (λ _, None) (λ _, None)) world0 =
  Uncaught bad_alloc world0.
Proof. reflexivity. Qed.

(** Symbolic execution of the monadic code. *)
Ltac mred_ops :=
  cbn [exec];
  unfold bind, ret, fresh_name, var, print,
    UniquePointerDemo.make_unique, UniquePointerDemo.deref,
    UniquePointerDemo.destroy, UniquePointerDemo.move_construct,
    UniquePointerDemo.to_bool;
  cbn [final_world store cout events app process_end negb
       DanglingPointer.pointer1 DanglingPointer.pointer2
       UniquePointerDemo.pointer1 UniquePointerDemo.pointer2
       UniquePointerDemo.get].

Ltac mred := unfold new_int, load, delete_; mred_ops.

Ltac mrun_with H :=
  repeat first
    [ progress mred
    | rewrite H
    | rewrite lookup_insert_eq
    | rewrite decide_True by done
    | rewrite decide_False by (intros ?; done)
    | rewrite bool_decide_true by done
    | rewrite bool_decide_false by (intros ?; done) ].

Lemma exec_app {F} (l1 l2 : list (F → M F)) (f : F) (w : world) :
  exec (l1 ++ l2) f w =
  match exec l1 f w with
  | Ok f' w' => exec l2 f' w'
  | Uncaught e w' => Uncaught e w'
  | Trap t w' => Trap t w'
  end.
Proof.
  revert f w. induction l1 as [|s l1 IH]; intros f w; [done|].
  cbn [app exec]. unfold bind. destruct (s f w); auto.
Qed.

Lemma conforming_nonnull p h a :
  conforming p → operator_new p h = Some a → a ≠ nullptr.
Proof. intros Hc Hn. by destruct (Hc h a Hn). Qed.

Module DanglingPointerSpec.
Import DanglingPointer.

Section Run.
Variable p : platform.
Variable a : addr.
Hypothesis Hconf : conforming p.
Hypothesis Hnew : operator_new p ∅ = Some a.

Let Hnn : a ≠ nullptr := conforming_nonnull p ∅ a Hconf Hnew.

Local Abbreviation lines_13_to_17 :=
  [Str ("Allocation succeeded." +:+ LF);
   Str "pointer1: "; Ptr a; Str " -> "; Int 67; Endl;
   Str "pointer2: "; Ptr a; Str " -> "; Int 67; Endl].

Lemma run_aliased :
  exec [line9 p; line10] frame0 world0 =
  Ok (Frame (Some a) (Some a))
     (World (<[a := Live 67]> ∅) [] [EvNew a 67]).
Proof.
  unfold line9, line10, frame0, world0. mrun_with Hnew. reflexivity.
Qed.

Lemma run_guard w :
  store w !! a = Some (Live 67) →
  line13 p (Frame (Some a) (Some a)) w =
  Ok (Frame (Some a) (Some a))
     (World (store w) (cout w ++ lines_13_to_17)
            (events w ++ [EvLoad 15 a Valid; EvLoad 16 a Valid])).
Proof.
  intros Hw. unfold line13. mrun_with Hw.
  by rewrite <- !app_assoc.
Qed.

Lemma run_before_release :
  exec (before_release p) frame0 world0 =
  Ok (Frame (Some a) (Some a))
     (World (<[a := Live 67]> ∅) lines_13_to_17
        [EvNew a 67; EvLoad 15 a Valid; EvLoad 16 a Valid]).
Proof.
  change (before_release p) with ([line9 p; line10] ++ [line13 p]).
  rewrite exec_app, run_aliased. cbn [exec]. unfold bind at 1.
  rewrite run_guard by apply lookup_insert_eq. reflexivity.
Qed.

Lemma run_released :
  exec (before_release p ++ release) frame0 world0 =
  Ok (Frame (Some nullptr) (Some a))
     (World (<[a := Released]> (<[a := Live 67]> ∅)) lines_13_to_17
        [EvNew a 67; EvLoad 15 a Valid; EvLoad 16 a Valid; EvDelete a]).
Proof.
  rewrite exec_app, run_before_release.
  unfold release, line19, line20. mrun_with Hnew. reflexivity.
Qed.

(** The last output statement, run where the cell at [a] is released. *)
Lemma run_final_read q w :
  store w !! a = Some Released →
  line24 p (Frame q (Some a)) w =
  match invalid_read p a with
  | Some v =>
      Ok (Frame q (Some a))
         (World (store w)
            (cout w ++
             [Str "pointer2 after delete: "; Ptr a; Str " -> "; Int v;
              Str "  (undefined behavior — for demonstration only!)"; Endl])
            (events w ++ [EvLoad 25 a UseAfterRelease]))
  | None =>
      Trap (BadRead 25 a UseAfterRelease)
         (World (store w)
            (cout w ++ [Str "pointer2 after delete: "; Ptr a; Str " -> "])
            (events w ++ [EvLoad 25 a UseAfterRelease]))
  end.
Proof.
  intros Hw. unfold line24. mrun_with Hw.
  destruct (invalid_read p a); mred; [|done].
  by rewrite <- !app_assoc.
Qed.

Lemma run_main :
  main p world0 =
  let w := World (<[a := Released]> (<[a := Live 67]> ∅)) lines_13_to_17
             [EvNew a 67; EvLoad 15 a Valid; EvLoad 16 a Valid; EvDelete a] in
  match line24 p (Frame (Some nullptr) (Some a)) w with
  | Ok _ w' => Ok 0 w'
  | Uncaught e w' => Uncaught e w'
  | Trap t w' => Trap t w'
  end.
Proof.
  unfold main, body. unfold bind at 1.
  rewrite app_assoc, exec_app, run_released. cbn [exec]. unfold bind at 1.
  cbv zeta. by destruct (line24 p _ _).
Qed.

(** C3.  On every run in which the allocation succeeds, the statements up
    to and including the release perform no invalid access; the read
    [*pointer2] on line 25 then reads the cell that [delete pointer1]
    released, and it is the one invalid access of the whole run. *)
Theorem C3_use_after_release_at_final_read :
  ∃ f w,
    exec (before_release p ++ release) frame0 world0 = Ok f w ∧
    List.filter is_invalid (events w) = [] ∧
    pointer2 f = Some a ∧
    store w !! a = Some Released ∧
    events (final_world (line24 p f w)) =
      events w ++ [EvLoad 25 a UseAfterRelease] ∧
    List.filter is_invalid (events (final_world (main p world0))) =
      [EvLoad 25 a UseAfterRelease].
Proof.
  eexists _, _. split; [apply run_released|].
  cbn [events pointer2 store].
  split; [done|]. split; [done|].
  split; [apply lookup_insert_eq|].
  rewrite run_main. cbv zeta.
  rewrite run_final_read by apply lookup_insert_eq.
  destruct (invalid_read p a); done.
Qed.

(** C4.  Before the release step the two output lines show the same
    address and the same value, and that value is 67. *)
Theorem C4_aliases_agree_before_release :
  ∃ f w a1 v1 a2 v2,
    exec (before_release p) frame0 world0 = Ok f w ∧
    pointer1 f = Some a1 ∧ pointer2 f = Some a2 ∧
    cout w =
      [Str ("Allocation succeeded." +:+ LF);
       Str "pointer1: "; Ptr a1; Str " -> "; Int v1; Endl;
       Str "pointer2: "; Ptr a2; Str " -> "; Int v2; Endl] ∧
    a1 = a2 ∧ v1 = v2 ∧ v1 = 67 ∧
    List.filter is_delete (events w) = [].
Proof.
  eexists _, _, a, 67, a, 67. split; [apply run_before_release|]. done.
Qed.

(** C6.  The release step frees the cell through the first reference and
    then clears that reference; neither statement touches the second
    reference, which still holds the address of the cell, and the access
    that follows is made at that address. *)
Theorem C6_release_clears_first_keeps_second :
  (∀ f w f' w', line19 f w = Ok f' w' → f' = f) ∧
  (∀ f w f' w', line20 f w = Ok f' w' →
     pointer1 f' = Some nullptr ∧ pointer2 f' = pointer2 f ∧ w' = w) ∧
  ∃ f0 w0 f1 w1 f2 w2,
    exec (before_release p) frame0 world0 = Ok f0 w0 ∧
    pointer1 f0 = Some a ∧ pointer2 f0 = Some a ∧
    is_live (store w0) a = true ∧
    line19 f0 w0 = Ok f1 w1 ∧
    events w1 = events w0 ++ [EvDelete a] ∧
    store w1 !! a = Some Released ∧
    pointer2 f1 = Some a ∧
    line20 f1 w1 = Ok f2 w2 ∧
    pointer1 f2 = Some nullptr ∧ pointer2 f2 = Some a ∧
    events (final_world (line24 p f2 w2)) =
      events w2 ++ [EvLoad 25 a UseAfterRelease].
Proof.
  split; [|split].
  - intros f w f' w'. unfold line19. mred.
    destruct (pointer1 f) as [q|]; [|done].
    destruct (decide (q = nullptr)); [by intros [= <- _]|].
    destruct (store w !! q) as [[v|]|]; [|done..]. by intros [= <- _].
  - intros f w f' w'. unfold line20. mred.
    destruct (pointer1 f); [|done]. by intros [= <- <-].
  - eexists _, _, _, _, _, _. split; [apply run_before_release|].
    split; [done|]. split; [done|].
    split; [unfold is_live; cbn [store]; by rewrite lookup_insert_eq|].
    split; [unfold line19; mrun_with Hnew; reflexivity|].
    split; [done|]. split; [apply lookup_insert_eq|]. split; [done|].
    split; [unfold line20; mred; reflexivity|].
    split; [done|]. split; [done|].
    rewrite run_final_read by apply lookup_insert_eq.
    by destruct (invalid_read p a).
Qed.

End Run.
Lemma C3_witness :
  conforming checked ∧ operator_new checked ∅ = Some 4096 ∧
  ∃ f w,
    exec (before_release checked ++ release) frame0 world0 = Ok f w ∧
    List.filter is_invalid (events w) = [] ∧
    pointer2 f = Some 4096 ∧
    store w !! 4096 = Some Released ∧
    events (final_world (line24 checked f w)) =
      events w ++ [EvLoad 25 4096 UseAfterRelease] ∧
    List.filter is_invalid (events (final_world (main checked world0))) =
      [EvLoad 25 4096 UseAfterRelease].
Proof.
  split; [apply arena_conforming|]. split; [reflexivity|].
  exact (C3_use_after_release_at_final_read checked 4096
           (arena_conforming _) eq_refl).
Defined.

Lemma C4_witness :
  conforming plain ∧ operator_new plain ∅ = Some 4096 ∧
  ∃ f w a1 v1 a2 v2,
    exec (before_release plain) frame0 world0 = Ok f w ∧
    pointer1 f = Some a1 ∧ pointer2 f = Some a2 ∧
    cout w =
      [Str ("Allocation succeeded." +:+ LF);
       Str "pointer1: "; Ptr a1; Str " -> "; Int v1; Endl;
       Str "pointer2: "; Ptr a2; Str " -> "; Int v2; Endl] ∧
    a1 = a2 ∧ v1 = v2 ∧ v1 = 67 ∧
    List.filter is_delete (events w) = [].
Proof.
  split; [apply arena_conforming|]. split; [reflexivity|].
  exact (C4_aliases_agree_before_release plain 4096
           (arena_conforming _) eq_refl).
Defined.

Lemma C6_witness :
  conforming plain ∧ operator_new plain ∅ = Some 4096 ∧
  ∃ f0 w0 f1 w1 f2 w2,
    exec (before_release plain) frame0 world0 = Ok f0 w0 ∧
    pointer1 f0 = Some 4096 ∧ pointer2 f0 = Some 4096 ∧
    is_live (store w0) 4096 = true ∧
    line19 f0 w0 = Ok f1 w1 ∧
    events w1 = events w0 ++ [EvDelete 4096] ∧
    store w1 !! 4096 = Some Released ∧
    pointer2 f1 = Some 4096 ∧
    line20 f1 w1 = Ok f2 w2 ∧
    pointer1 f2 = Some nullptr ∧ pointer2 f2 = Some 4096 ∧
    events (final_world (line24 plain f2 w2)) =
      events w2 ++ [EvLoad 25 4096 UseAfterRelease].
Proof.
  split; [apply arena_conforming|]. split; [reflexivity|].
  exact (proj2 (proj2 (C6_release_clears_first_keeps_second plain 4096
                         (arena_conforming _) eq_refl))).
Defined.

(** C5.  The block of lines 14 to 16 is entered only when the first
    reference is not null: with a null first reference the statement does
    nothing, so any output or read it performs implies that the check
    succeeded; and the two statements before it read no cell at all. *)
Theorem C5_reads_only_under_null_check (p : platform) :
  (∀ f w, pointer1 f = Some nullptr → line13 p f w = Ok f w) ∧
  (∀ f w,
     cout (final_world (line13 p f w)) ≠ cout w ∨
     events (final_world (line13 p f w)) ≠ events w →
     ∃ q, pointer1 f = Some q ∧ q ≠ nullptr) ∧
  (∀ f w,
     List.filter is_load (events (final_world (exec [line9 p; line10] f w))) =
     List.filter is_load (events w)).
Proof.
  split; [|split].
  - intros f w Hnull. unfold line13. mred. rewrite Hnull.
    by rewrite decide_False by (by intros ?).
  - intros f w. unfold line13. mred.
    destruct (pointer1 f) as [q|]; [|by intros [?|?]].
    destruct (decide (q ≠ nullptr)); [eauto|]. by intros [?|?].
  - intros f w. unfold line9, line10. mred.
    destruct (pointer1 f); [done|].
    destruct (operator_new p (store w)); [|done]. mred.
    destruct (pointer2 f); mred; by rewrite List.filter_app, app_nil_r.
Qed.

Lemma C5_witness :
  pointer1 (Frame (Some nullptr) (Some nullptr)) = Some nullptr ∧
  line13 plain (Frame (Some nullptr) (Some nullptr)) world0 =
    Ok (Frame (Some nullptr) (Some nullptr)) world0.
Proof.
  split; [reflexivity|].
  exact (proj1 (C5_reads_only_under_null_check plain)
           (Frame (Some nullptr) (Some nullptr)) world0 eq_refl).
Defined.

(** C9.  With an allocation function that keeps the guarantee of
    [operator new], the allocation either raises [std::bad_alloc] before
    anything is printed, or yields a reference that is not null; in that
    case the check of line 13 succeeds and the three lines are printed. *)
Theorem C9_allocation_never_null (p : platform) :
  conforming p →
  match exec [line9 p; line10] frame0 world0 with
  | Ok f w =>
      ∃ q, pointer1 f = Some q ∧ pointer2 f = Some q ∧ q ≠ nullptr ∧
        ∃ w', line13 p f w = Ok f w' ∧
          cout w' =
            cout w ++
            [Str ("Allocation succeeded." +:+ LF);
             Str "pointer1: "; Ptr q; Str " -> "; Int 67; Endl;
             Str "pointer2: "; Ptr q; Str " -> "; Int 67; Endl]
  | Uncaught e w => e = bad_alloc ∧ w = world0
  | Trap _ _ => False
  end.
Proof.
  intros Hconf. destruct (operator_new p ∅) as [a|] eqn:Hnew.
  - rewrite (run_aliased p a Hnew).
    exists a. split; [done|]. split; [done|].
    split; [by eapply conforming_nonnull|].
    eexists. split; [apply (run_guard p a Hconf Hnew); apply lookup_insert_eq|].
    done.
  - unfold line9, frame0, world0. mrun_with Hnew. done.
Qed.

Lemma C9_witness :
  conforming plain ∧
  match exec [line9 plain; line10] frame0 world0 with
  | Ok f w =>
      ∃ q, pointer1 f = Some q ∧ pointer2 f = Some q ∧ q ≠ nullptr ∧
        ∃ w', line13 plain f w = Ok f w' ∧
          cout w' =
            cout w ++
            [Str ("Allocation succeeded." +:+ LF);
             Str "pointer1: "; Ptr q; Str " -> "; Int 67; Endl;
             Str "pointer2: "; Ptr q; Str " -> "; Int 67; Endl]
  | Uncaught e w => e = bad_alloc ∧ w = world0
  | Trap _ _ => False
  end.
Proof.
  split; [apply arena_conforming|].
  exact (C9_allocation_never_null plain (arena_conforming _)).
Defined.

End DanglingPointerSpec.

Module UniquePointerDemoSpec.
Import UniquePointerDemo.

Lemma is_live_insert (h : heap) a c b :
  is_live (<[a := c]> h) b =
  if decide (a = b) then (if c is Live _ then true else false)
  else is_live h b.
Proof.
  unfold is_live. rewrite lookup_insert. by case_decide.
Qed.

Local Abbreviation preserves s :=
  (∀ f w f' w', single_owner f w → s f w = Ok f' w' → single_owner f' w').

Local Abbreviation silent s :=
  (∀ f w f' w', s f w = Ok f' w' → f' = f ∧ store w' = store w).

Lemma silent_preserves s : silent s → preserves s.
Proof.
  intros Hs f w f' w' Hinv Hrun. destruct (Hs f w f' w' Hrun) as [-> Hst].
  unfold single_owner. by rewrite Hst.
Qed.

Lemma load_store p line q w v w' :
  load p line q w = Ok v w' → store w' = store w.
Proof.
  unfold load. destruct (store w !! q) as [[x|]|];
    [|destruct (invalid_read p q)..]; by intros [= _ <-].
Qed.

Lemma line12_silent p : silent (line12 p).
Proof.
  intros f w f' w'. unfold line12. mred_ops.
  destruct (pointer1 f) as [u|]; [|done].
  match goal with |- context [load p ?l ?q ?w0] =>
    destruct (load p l q w0) as [v w1| |] eqn:E; [|done..] end.
  apply load_store in E. cbn [store] in E. by intros [= <- <-].
Qed.

Lemma line22_silent p : silent (line22 p).
Proof.
  intros f w f' w'. unfold line22. mred_ops.
  destruct (pointer2 f) as [u|]; [|done].
  match goal with |- context [load p ?l ?q ?w0] =>
    destruct (load p l q w0) as [v w1| |] eqn:E; [|done..] end.
  apply load_store in E. cbn [store] in E. by intros [= <- <-].
Qed.

Lemma line18_silent : silent line18.
Proof.
  intros f w f' w'. unfold line18. mred_ops.
  destruct (pointer1 f) as [u|]; [|done].
  destruct (bool_decide (get u ≠ nullptr)); by intros [= <- <-].
Qed.

Lemma line9_preserves p : conforming p → preserves (line9 p).
Proof.
  intros Hconf f w f' w' [Hlive Hheld]. unfold line9. mred.
  destruct (pointer1 f) as [u|] eqn:Hp1; [done|]. mred.
  destruct (operator_new p (store w)) as [a|] eqn:Hnew; [|done].
  destruct (Hconf _ _ Hnew) as [Hnn Hfree].
  assert (Hdead : is_live (store w) a = false).
  { unfold is_live. destruct (store w !! a) as [[v|]|] eqn:E; [|done..].
    by destruct (Hfree v). }
  intros [= <- <-]. split; cbn [store].
  - intros b. rewrite is_live_insert. unfold owners. cbn [pointer1 pointer2 holds get].
    destruct (decide (a = b)) as [<-|Hne]; intros Hb.
    + split; [done|]. destruct (pointer2 f) as [u2|] eqn:Hp2; [|done].
      cbn [holds]. case_decide as Hu2; [|done].
      rewrite <- Hu2 in Hdead, Hnn. rewrite (Hheld u2) in Hdead; [done| |done].
      by right.
    + destruct (Hlive b Hb) as [? Hown]. split; [done|].
      unfold owners in Hown. rewrite Hp1 in Hown. done.
  - intros u [Hu|Hu] Hnu; cbn [pointer1 pointer2] in Hu; rewrite is_live_insert.
    + injection Hu as <-. cbn [get]. by rewrite decide_True.
    + case_decide; [done|]. apply Hheld; [by right|done].
Qed.

Lemma line16_preserves : preserves line16.
Proof.
  intros f w f' w' [Hlive Hheld]. unfold line16. mred.
  destruct (pointer2 f) as [u2|] eqn:Hp2; [done|].
  destruct (pointer1 f) as [u1|] eqn:Hp1; [|done].
  intros [= <- <-]. split.
  - intros b Hb. destruct (Hlive b Hb) as [Hnn Hown]. split; [done|].
    unfold owners in *. rewrite Hp1, Hp2 in Hown.
    cbn [pointer1 pointer2 holds get] in *.
    rewrite decide_False by done. lia.
  - intros u [Hu|Hu] Hnu; cbn [pointer1 pointer2] in Hu; injection Hu as <-.
    + done.
    + cbn [get] in *. apply Hheld; [by left|done].
Qed.

Lemma delete_ok q w w' :
  delete_ q w = Ok () w' →
  (q = nullptr ∧ w' = w) ∨
  (q ≠ nullptr ∧ is_live (store w) q = true ∧
   w' = World (<[q := Released]> (store w)) (cout w) (events w ++ [EvDelete q])).
Proof.
  unfold delete_, is_live. case_decide; [intros [= <-]; by left|].
  destruct (store w !! q) as [[v|]|]; [|done..]. intros [= <-]. by right.
Qed.

Lemma destroy_ok u w w' :
  destroy u w = Ok () w' →
  (get u = nullptr ∧ w' = w) ∨
  (get u ≠ nullptr ∧ is_live (store w) (get u) = true ∧
   w' = World (<[get u := Released]> (store w)) (cout w)
          (events w ++ [EvDelete (get u)])).
Proof.
  unfold destroy. case_decide as Hu.
  - intros Hd. apply delete_ok in Hd. naive_solver.
  - intros [= <-]. left. split; [|done]. by destruct (decide (get u = nullptr)).
Qed.

(** Ending the lifetime of one handle, [other] being the second local. *)
Lemma end_of_handle_preserves f w u other w' f' :
  single_owner f w →
  (∀ b, owners f b = (holds b (Some u) + holds b other)%nat) →
  (∀ v, in_scope f' v → other = Some v) →
  (∀ b, owners f' b = holds b other) →
  (∀ v, other = Some v → in_scope f v) →
  destroy u w = Ok () w' →
  single_owner f' w'.
Proof.
  intros [Hlive Hheld] Hf Hsc Hf' Hin Hd.
  apply destroy_ok in Hd as [[Hu ->]|(Hu & Hlu & ->)]; split; cbn [store].
  - intros b Hb. destruct (Hlive b Hb) as [Hnn Hown]. split; [done|].
    rewrite Hf in Hown. rewrite Hf'. cbn [holds] in Hown.
    rewrite decide_False in Hown by congruence. done.
  - intros v Hv Hnv. apply Hheld; [|done]. apply Hin. by apply Hsc.
  - intros b. rewrite is_live_insert. case_decide as Hb; [done|]. intros Hlb.
    destruct (Hlive b Hlb) as [Hnn Hown]. split; [done|].
    rewrite Hf in Hown. rewrite Hf'. cbn [holds] in Hown.
    rewrite decide_False in Hown by done. done.
  - intros v Hv Hnv. rewrite is_live_insert.
    assert (Hov : other = Some v) by by apply Hsc.
    case_decide as Hb.
    + destruct (Hlive _ Hlu) as [_ Hown]. rewrite Hf in Hown.
      rewrite Hov in Hown. cbn [holds] in Hown.
      rewrite decide_True in Hown by done.
      rewrite decide_True in Hown by done. done.
    + apply Hheld; [|done]. by apply Hin.
Qed.

Lemma end_of_pointer2_preserves : preserves end_of_pointer2.
Proof.
  intros f w f' w' Hinv. unfold end_of_pointer2. mred_ops.
  destruct (pointer2 f) as [u|] eqn:Hp2; [|done]. cbv beta iota.
  fold (destroy u). destruct (destroy u w) as [[] w1| |] eqn:Hd; [|done..].
  intros [= <- <-].
  eapply (end_of_handle_preserves f w u (pointer1 f)); [done| | | | |done].
  - intros b. unfold owners. rewrite Hp2. lia.
  - intros v [Hv|Hv]; cbn [pointer1 pointer2] in Hv; done.
  - intros b. unfold owners. cbn [pointer1 pointer2 holds]. lia.
  - intros v Hv. by left.
Qed.

Lemma end_of_pointer1_preserves : preserves end_of_pointer1.
Proof.
  intros f w f' w' Hinv. unfold end_of_pointer1. mred_ops.
  destruct (pointer1 f) as [u|] eqn:Hp1; [|done]. cbv beta iota.
  fold (destroy u). destruct (destroy u w) as [[] w1| |] eqn:Hd; [|done..].
  intros [= <- <-].
  eapply (end_of_handle_preserves f w u (pointer2 f)); [done| | | | |done].
  - intros b. unfold owners. by rewrite Hp1.
  - intros v [Hv|Hv]; cbn [pointer1 pointer2] in Hv; done.
  - intros b. unfold owners. cbn [pointer1 pointer2 holds]. lia.
  - intros v Hv. by right.
Qed.

Lemma exec_preserves (I : frame → world → Prop) (prog : list (frame → M frame)) :
  (∀ s, s ∈ prog → ∀ f w f' w', I f w → s f w = Ok f' w' → I f' w') →
  ∀ f w f' w', I f w → exec prog f w = Ok f' w' → I f' w'.
Proof.
  induction prog as [|s prog IH]; intros Hall f w f' w' Hinv.
  - by intros [= <- <-].
  - cbn [exec]. unfold bind. destruct (s f w) as [f1 w1| |] eqn:Hs; [|done..].
    apply IH; [|eapply Hall; [left|done..]].
    intros s' Hs'. apply Hall. by right.
Qed.

Lemma steps_preserve p :
  conforming p →
  ∀ s, s ∈ steps p →
    ∀ f w f' w', single_owner f w → s f w = Ok f' w' → single_owner f' w'.
Proof.
  intros Hconf s Hs. unfold steps, body, scope_exit in Hs. cbn [app] in Hs.
  repeat (apply elem_of_cons in Hs as [->|Hs]).
  - by apply line9_preserves.
  - apply silent_preserves, line12_silent.
  - apply line16_preserves.
  - apply silent_preserves, line18_silent.
  - apply silent_preserves, line22_silent.
  - apply end_of_pointer2_preserves.
  - apply end_of_pointer1_preserves.
  - by apply elem_of_nil in Hs.
Qed.

Lemma single_owner_initially : single_owner frame0 world0.
Proof.
  split.
  - intros a. unfold is_live, world0. cbn [store]. by rewrite lookup_empty.
  - by intros u [?|?].
Qed.

Section Run.
Variable p : platform.
Variable a : addr.
Hypothesis Hnew : operator_new p ∅ = Some a.

Local Abbreviation line_12_13 :=
  [Str "pointer1 -> "; Ptr a; Str " : value = "; Int 67; Endl].
Local Abbreviation lines_19_to_23 :=
  [Str ("pointer1 is now null after move" +:+ LF);
   Str "pointer2 -> "; Ptr a; Str " : value = "; Int 67; Endl].

Lemma run_line9 :
  line9 p frame0 world0 =
  Ok (Frame (Some (UniquePtr a)) None)
     (World (<[a := Live 67]> ∅) [] [EvNew a 67]).
Proof. unfold line9, frame0, world0. mrun_with Hnew. reflexivity. Qed.

Lemma run_line12 f w :
  pointer1 f = Some (UniquePtr a) →
  store w !! a = Some (Live 67) →
  line12 p f w =
  Ok f (World (store w) (cout w ++ line_12_13)
              (events w ++ [EvLoad 13 a Valid])).
Proof.
  intros Hf Hw. unfold line12. mrun_with Hf. mrun_with Hw.
  by rewrite <- !app_assoc.
Qed.

Lemma run_line16 w :
  line16 (Frame (Some (UniquePtr a)) None) w =
  Ok (Frame (Some (UniquePtr nullptr)) (Some (UniquePtr a))) w.
Proof. unfold line16. mred. reflexivity. Qed.

Lemma run_after_move w :
  store w !! a = Some (Live 67) →
  exec [line18; line22 p]
    (Frame (Some (UniquePtr nullptr)) (Some (UniquePtr a))) w =
  Ok (Frame (Some (UniquePtr nullptr)) (Some (UniquePtr a)))
     (World (store w) (cout w ++ lines_19_to_23)
            (events w ++ [EvLoad 23 a Valid])).
Proof.
  intros Hw. unfold line18, line22. mrun_with Hw.
  by rewrite <- !app_assoc.
Qed.

Lemma run_moved :
  exec [line9 p; line12 p; line16] frame0 world0 =
  Ok (Frame (Some (UniquePtr nullptr)) (Some (UniquePtr a)))
     (World (<[a := Live 67]> ∅) line_12_13
            [EvNew a 67; EvLoad 13 a Valid]).
Proof.
  cbn [exec]. unfold bind at 1. rewrite run_line9.
  unfold bind at 1. rewrite run_line12 by (done || apply lookup_insert_eq).
  unfold bind at 1. by rewrite run_line16.
Qed.

Lemma run_body :
  exec (body p) frame0 world0 =
  Ok (Frame (Some (UniquePtr nullptr)) (Some (UniquePtr a)))
     (World (<[a := Live 67]> ∅) (line_12_13 ++ lines_19_to_23)
            [EvNew a 67; EvLoad 13 a Valid; EvLoad 23 a Valid]).
Proof.
  change (body p) with ([line9 p; line12 p; line16] ++ [line18; line22 p]).
  rewrite exec_app, run_moved.
  by rewrite run_after_move by apply lookup_insert_eq.
Qed.

Lemma run_scope_exit f w :
  a ≠ nullptr →
  pointer1 f = Some (UniquePtr nullptr) →
  pointer2 f = Some (UniquePtr a) →
  store w !! a = Some (Live 67) →
  exec scope_exit f w =
  Ok (Frame None None)
     (World (<[a := Released]> (store w)) (cout w) (events w ++ [EvDelete a])).
Proof.
  intros Hnn Hf1 Hf2 Hw. unfold scope_exit, end_of_pointer2, end_of_pointer1.
  mrun_with Hf2. mrun_with Hw. mrun_with Hf1. reflexivity.
Qed.

(** C1.  On every run that reaches the transfer of ownership, the source
    handle tests empty afterwards and the destination handle reads 67; the
    two statements that follow print exactly that. *)
Theorem C1_after_move_source_empty_destination_67 :
  ∃ f w u1 u2,
    exec [line9 p; line12 p; line16] frame0 world0 = Ok f w ∧
    pointer1 f = Some u1 ∧ to_bool u1 = false ∧
    pointer2 f = Some u2 ∧
    deref p 23 u2 w =
      Ok 67 (World (store w) (cout w)
               (events w ++ [EvLoad 23 (get u2) Valid])) ∧
    ∃ w', exec [line18; line22 p] f w = Ok f w' ∧
      cout w' =
        cout w ++
        [Str ("pointer1 is now null after move" +:+ LF);
         Str "pointer2 -> "; Ptr (get u2); Str " : value = "; Int 67; Endl].
Proof.
  eexists _, _, _, _. split; [apply run_moved|].
  split; [done|]. split; [done|]. split; [done|].
  split.
  - unfold deref, load. cbn [get store cout events].
    by rewrite lookup_insert_eq.
  - eexists. split; [apply run_after_move, lookup_insert_eq|]. done.
Qed.

(** C8.  No statement of the body releases anything; the one release of
    the cell happens when the lifetime of the destination handle ends at
    the exit from [main], the end of the source handle releases nothing,
    and when [main] returns no cell is left live and no access was
    invalid. *)
Theorem C8_released_once_at_scope_exit :
  conforming p →
  (∀ s, s ∈ body p → ∀ f w,
     List.filter is_delete (events (final_world (s f w))) =
     List.filter is_delete (events w)) ∧
  ∃ f w f' w' f'',
    exec (body p) frame0 world0 = Ok f w ∧
    is_live (store w) a = true ∧
    end_of_pointer2 f w = Ok f' w' ∧
    events w' = events w ++ [EvDelete a] ∧
    store w' !! a = Some Released ∧
    end_of_pointer1 f' w' = Ok f'' w' ∧
    main p world0 = Ok 0 w' ∧
    List.filter is_delete (events w') = [EvDelete a] ∧
    List.filter is_invalid (events w') = [] ∧
    (∀ b, is_live (store w') b = false).
Proof.
  intros Hconf. pose proof (conforming_nonnull p ∅ a Hconf Hnew) as Hnn.
  split.
  - intros s Hs f w. unfold body in Hs.
    repeat (apply elem_of_cons in Hs as [->|Hs]); [..|by apply elem_of_nil in Hs].
    + unfold line9. mred. destruct (pointer1 f); [done|]. mred.
      destruct (operator_new p (store w)); [|done]. mred.
      by rewrite List.filter_app, app_nil_r.
    + unfold line12. mred. destruct (pointer1 f) as [u|]; [|done]. mred.
      destruct (store w !! get u) as [[v|]|]; [|destruct (invalid_read p (get u))..];
        mred; by rewrite List.filter_app, app_nil_r.
    + unfold line16. mred. destruct (pointer2 f); [done|].
      by destruct (pointer1 f).
    + unfold line18. mred. destruct (pointer1 f) as [u|]; [|done].
      by destruct (bool_decide (get u ≠ nullptr)).
    + unfold line22. mred. destruct (pointer2 f) as [u|]; [|done]. mred.
      destruct (store w !! get u) as [[v|]|]; [|destruct (invalid_read p (get u))..];
        mred; by rewrite List.filter_app, app_nil_r.
  - eexists _, _, _, _, _. split; [apply run_body|].
    split; [unfold is_live; cbn [store]; by rewrite lookup_insert_eq|].
    split; [unfold end_of_pointer2; mrun_with Hnew; reflexivity|].
    split; [done|]. split; [apply lookup_insert_eq|].
    split; [unfold end_of_pointer1; mrun_with Hnew; reflexivity|].
    split.
    { unfold main, steps. unfold bind at 1.
      rewrite exec_app, run_body.
      rewrite run_scope_exit by (done || apply lookup_insert_eq). done. }
    split; [done|]. split; [done|].
    intros b. cbn [store]. rewrite !is_live_insert.
    repeat case_decide; try done; unfold is_live; by rewrite lookup_empty.
Qed.

End Run.

Lemma C1_witness :
  operator_new plain ∅ = Some 4096 ∧
  ∃ f w u1 u2,
    exec [line9 plain; line12 plain; line16] frame0 world0 = Ok f w ∧
    pointer1 f = Some u1 ∧ to_bool u1 = false ∧
    pointer2 f = Some u2 ∧
    deref plain 23 u2 w =
      Ok 67 (World (store w) (cout w)
               (events w ++ [EvLoad 23 (get u2) Valid])) ∧
    ∃ w', exec [line18; line22 plain] f w = Ok f w' ∧
      cout w' =
        cout w ++
        [Str ("pointer1 is now null after move" +:+ LF);
         Str "pointer2 -> "; Ptr (get u2); Str " : value = "; Int 67; Endl].
Proof.
  split; [reflexivity|].
  exact (C1_after_move_source_empty_destination_67 plain 4096 eq_refl).
Defined.

Lemma C8_witness :
  operator_new checked ∅ = Some 4096 ∧ conforming checked ∧
  ∃ f w f' w' f'',
    exec (body checked) frame0 world0 = Ok f w ∧
    is_live (store w) 4096 = true ∧
    end_of_pointer2 f w = Ok f' w' ∧
    events w' = events w ++ [EvDelete 4096] ∧
    store w' !! 4096 = Some Released ∧
    end_of_pointer1 f' w' = Ok f'' w' ∧
    main checked world0 = Ok 0 w' ∧
    List.filter is_delete (events w') = [EvDelete 4096] ∧
    List.filter is_invalid (events w') = [] ∧
    (∀ b, is_live (store w') b = false).
Proof.
  split; [reflexivity|]. split; [apply arena_conforming|].
  exact (proj2 (C8_released_once_at_scope_exit checked 4096 eq_refl
                  (arena_conforming _))).
Defined.

(** C2.  Single ownership holds before [main] starts and is kept by every
    statement and by the end of each handle's lifetime, hence at every
    point of every run; the transfer leaves the source handle empty.  When
    the allocation succeeds every point is reached, and from the allocation
    until the scope exit the cell is live and held by exactly one handle,
    the source handle staying empty from the transfer on. *)
Theorem C2_single_owner_invariant (p : platform) :
  conforming p →
  single_owner frame0 world0 ∧
  (∀ s, s ∈ steps p →
     ∀ f w f' w', single_owner f w → s f w = Ok f' w' → single_owner f' w') ∧
  (∀ n f w,
     exec (take n (steps p)) frame0 world0 = Ok f w → single_owner f w) ∧
  (∀ f w f' w',
     line16 f w = Ok f' w' → pointer1 f' = Some (UniquePtr nullptr)) ∧
  (∀ a, operator_new p ∅ = Some a →
     ∀ n, (n ≤ 7)%nat →
       ∃ f w, exec (take n (steps p)) frame0 world0 = Ok f w ∧
         ((1 ≤ n ≤ 5)%nat →
            is_live (store w) a = true ∧ owners f a = 1%nat) ∧
         ((3 ≤ n ≤ 5)%nat → pointer1 f = Some (UniquePtr nullptr))).
Proof.
  intros Hconf. split; [apply single_owner_initially|].
  split; [by apply (steps_preserve p)|]. split; [|split].
  - intros n f w. apply exec_preserves; [|apply single_owner_initially].
    intros s Hs. apply (steps_preserve p); [done|].
    by eapply (subseteq_take n).
  - intros f w f' w'. unfold line16. mred.
    destruct (pointer2 f); [done|]. destruct (pointer1 f); [|done].
    by intros [= <- _].
  - intros a Hnew n Hn.
    pose proof (conforming_nonnull p ∅ a Hconf Hnew) as Hnn.
    assert (Hlive : is_live (<[a := Live 67]> ∅) a = true)
      by (unfold is_live; by rewrite lookup_insert_eq).
    assert (H1 : holds a (Some (UniquePtr a)) = 1%nat)
      by (cbn [holds get]; by rewrite decide_True).
    assert (H0 : holds a (Some (UniquePtr nullptr)) = 0%nat)
      by (cbn [holds get]; by rewrite decide_False).
    unfold steps, body, scope_exit. cbn [app].
    destruct n as [|[|[|[|[|[|[|[|n]]]]]]]]; [..|lia]; cbn [take].
    + eexists _, _. split; [reflexivity|]. split; intros; lia.
    + eexists _, _. split; [cbn [exec]; unfold bind at 1; by rewrite (run_line9 p a)|].
      split; [|intros; lia]. intros _. unfold owners.
      cbn [store pointer1 pointer2]. rewrite H1. done.
    + eexists _, _. split.
      { cbn [exec]. unfold bind at 1. rewrite (run_line9 p a) by done.
        unfold bind at 1.
        by rewrite (run_line12 p a) by (done || apply lookup_insert_eq). }
      split; [|intros; lia]. intros _. unfold owners.
      cbn [store pointer1 pointer2]. rewrite H1. done.
    + eexists _, _. split; [by apply (run_moved p a)|].
      unfold owners. cbn [store pointer1 pointer2]. rewrite H1, H0. done.
    + eexists _, _. split.
      { change [line9 p; line12 p; line16; line18]
          with ([line9 p; line12 p; line16] ++ [line18]).
        rewrite exec_app, (run_moved p a) by done.
        unfold line18. mred. reflexivity. }
      unfold owners. cbn [store pointer1 pointer2]. rewrite H1, H0. done.
    + eexists _, _. split; [by apply (run_body p a)|].
      unfold owners. cbn [store pointer1 pointer2]. rewrite H1, H0. done.
    + eexists _, _. split.
      { change [line9 p; line12 p; line16; line18; line22 p; end_of_pointer2]
          with (body p ++ [end_of_pointer2]).
        rewrite exec_app, (run_body p a) by done.
        unfold end_of_pointer2. mrun_with Hnew. reflexivity. }
      split; intros; lia.
    + eexists _, _. split.
      { change [line9 p; line12 p; line16; line18; line22 p;
                end_of_pointer2; end_of_pointer1]
          with (body p ++ scope_exit).
        rewrite exec_app, (run_body p a) by done.
        by rewrite (run_scope_exit a) by (done || apply lookup_insert_eq). }
      split; intros; lia.
Qed.

Lemma C2_witness :
  conforming checked ∧
  single_owner frame0 world0 ∧
  (∀ s, s ∈ steps checked →
     ∀ f w f' w', single_owner f w → s f w = Ok f' w' → single_owner f' w') ∧
  (∀ n f w,
     exec (take n (steps checked)) frame0 world0 = Ok f w →
     single_owner f w) ∧
  (∀ f w f' w',
     line16 f w = Ok f' w' → pointer1 f' = Some (UniquePtr nullptr)) ∧
  (∀ a, operator_new checked ∅ = Some a →
     ∀ n, (n ≤ 7)%nat →
       ∃ f w, exec (take n (steps checked)) frame0 world0 = Ok f w ∧
         ((1 ≤ n ≤ 5)%nat →
            is_live (store w) a = true ∧ owners f a = 1%nat) ∧
         ((3 ≤ n ≤ 5)%nat → pointer1 f = Some (UniquePtr nullptr))).
Proof.
  split; [apply arena_conforming|].
  exact (C2_single_owner_invariant checked (arena_conforming _)).
Defined.

(** C10.  The move constructor hands the stored address over unchanged:
    the destination handle reports after the move what the source handle
    reported before it, and the two output statements of a run print the
    same address. *)
Theorem C10_move_preserves_address (p : platform) :
  (∀ f w f' w',
     line16 f w = Ok f' w' →
     ∃ u1 u2, pointer1 f = Some u1 ∧ pointer2 f' = Some u2 ∧
       get u2 = get u1) ∧
  (∀ a, operator_new p ∅ = Some a →
     ∃ f w x v y v',
       exec (body p) frame0 world0 = Ok f w ∧
       cout w =
         [Str "pointer1 -> "; Ptr x; Str " : value = "; Int v; Endl;
          Str ("pointer1 is now null after move" +:+ LF);
          Str "pointer2 -> "; Ptr y; Str " : value = "; Int v'; Endl] ∧
       x = y).
Proof.
  split.
  - intros f w f' w'. unfold line16. mred.
    destruct (pointer2 f); [done|]. destruct (pointer1 f) as [u1|]; [|done].
    intros [= <- _]. by eexists _, _.
  - intros a Hnew. eexists _, _, _, _, _, _.
    split; [by apply run_body|]. by cbn [cout app].
Qed.

Lemma C10_witness :
  operator_new plain ∅ = Some 4096 ∧
  ∃ f w x v y v',
    exec (body plain) frame0 world0 = Ok f w ∧
    cout w =
      [Str "pointer1 -> "; Ptr x; Str " : value = "; Int v; Endl;
       Str ("pointer1 is now null after move" +:+ LF);
       Str "pointer2 -> "; Ptr y; Str " : value = "; Int v'; Endl] ∧
    x = y.
Proof.
  split; [reflexivity|].
  exact (proj2 (C10_move_preserves_address plain) 4096 eq_refl).
Defined.

End UniquePointerDemoSpec.

(** ** The exit status of the two programs *)

Module ExitStatus.

(** C7, as amended.  When the allocation succeeds, the scoped demo ends
    with exit status zero; the unmanaged demo reaches its [return 0]
    exactly when the read of the released cell on line 25 goes through,
    and ends abnormally when that read traps. *)
Theorem C7_exit_status (p : platform) (a : addr) :
  conforming p →
  operator_new p ∅ = Some a →
  process_end (UniquePointerDemo.main p world0) = Exited 0 ∧
  process_end (DanglingPointer.main p world0) =
    (if invalid_read p a is Some _ then Exited 0 else Aborted).
Proof.
  intros Hconf Hnew.
  pose proof (conforming_nonnull p ∅ a Hconf Hnew) as Hnn. split.
  - unfold UniquePointerDemo.main, UniquePointerDemo.steps. unfold bind at 1.
    rewrite exec_app, (UniquePointerDemoSpec.run_body p a Hnew).
    by rewrite (UniquePointerDemoSpec.run_scope_exit a)
      by (done || apply lookup_insert_eq).
  - rewrite (DanglingPointerSpec.run_main p a Hconf Hnew). cbv zeta.
    rewrite (DanglingPointerSpec.run_final_read p a)
      by apply lookup_insert_eq.
    by destruct (invalid_read p a).
Qed.

Lemma C7_witness :
  conforming plain ∧ operator_new plain ∅ = Some 4096 ∧
  process_end (UniquePointerDemo.main plain world0) = Exited 0 ∧
  process_end (DanglingPointer.main plain world0) =
    (if invalid_read plain 4096 is Some _ then Exited 0 else Aborted).
Proof.
  split; [apply arena_conforming|]. split; [reflexivity|].
  exact (C7_exit_status plain 4096 (arena_conforming _) eq_refl).
Defined.

(** C7, as stated, fails: on the instrumented platform the allocation
    function keeps its guarantee and succeeds, yet the unmanaged demo does
    not end with exit status zero. *)
Lemma C7_counterexample :
  ¬ (∀ p a, conforming p → operator_new p ∅ = Some a →
       process_end (DanglingPointer.main p world0) = Exited 0 ∧
       process_end (UniquePointerDemo.main p world0) = Exited 0).
Proof.
  intros H.
  destruct (H checked 4096 (arena_conforming _) eq_refl) as [H1 _].
  vm_compute in H1. discriminate H1.
Qed.

End ExitStatus.

(** ** Further behaviour of dangling_pointer.cpp *)

Module DanglingPointerLaws.
Import DanglingPointer DanglingPointerSpec.



(** X7.  Once [delete pointer1; pointer1 = nullptr;] has run, running it
    again changes nothing: the reset of line 20 turns a second release
    into [delete] of a null pointer. *)
Theorem X7_release_idempotent (f f' : frame) (w w' : world) :
  exec release f w = Ok f' w' →
  exec release f' w' = Ok f' w'.
Proof.
  intros Hrun.
  assert (Hcleared : pointer1 f' = Some nullptr).
  { revert Hrun. unfold release, line19, line20. mred.
    destruct (pointer1 f) as [q|] eqn:Hq; [|done]. cbv beta iota.
    destruct (decide (q = nullptr)); cbv beta iota;
      [rewrite Hq; by intros [= <- _]|].
    destruct (store w !! q) as [[v|]|]; cbv beta iota; [|done..].
    rewrite Hq. by intros [= <- _]. }
  destruct f' as [p1 p2]. cbn [pointer1] in Hcleared. subst p1.
  unfold release, line19, line20. mred. by rewrite decide_True.
Qed.

Lemma X7_witness :
  exec release (Frame (Some 4096) (Some 4096))
    (World (<[4096 := Live 67]> ∅) [] []) =
    Ok (Frame (Some nullptr) (Some 4096))
       (World (<[4096 := Released]> (<[4096 := Live 67]> ∅)) []
          [EvDelete 4096]) ∧
  exec release (Frame (Some nullptr) (Some 4096))
    (World (<[4096 := Released]> (<[4096 := Live 67]> ∅)) []
       [EvDelete 4096]) =
    Ok (Frame (Some nullptr) (Some 4096))
       (World (<[4096 := Released]> (<[4096 := Live 67]> ∅)) []
          [EvDelete 4096]).
Proof.
  split; [reflexivity|].
  exact (X7_release_idempotent (Frame (Some 4096) (Some 4096)) _
           (World (<[4096 := Live 67]> ∅) [] []) _ eq_refl).
Defined.



(** X10.  The hazard does not depend on the value stored or on what ran
    before: in any state where both pointers hold the same non-null
    address, once the release of lines 19 and 20 has completed the first
    pointer is null, the second still holds the address, the cell there is
    released, and the read of line 25 is a use after release. *)
Theorem X10_release_makes_alias_stale
    (p : platform) (f f' : frame) (w w' : world) (q : addr) :
  pointer1 f = Some q →
  pointer2 f = Some q →
  q ≠ nullptr →
  exec release f w = Ok f' w' →
  pointer1 f' = Some nullptr ∧
  pointer2 f' = Some q ∧
  store w' !! q = Some Released ∧
  events (final_world (line24 p f' w')) =
    events w' ++ [EvLoad 25 q UseAfterRelease].
Proof.
  intros H1 H2 Hnn. unfold release, line19, line20.
  destruct (store w !! q) as [[v|]|] eqn:Hcell;
    repeat first
      [ progress mred
      | rewrite H1
      | rewrite H2
      | rewrite Hcell
      | rewrite decide_False by (intros ?; done) ];
    [|done..].
  intros [= <- <-].
  split; [done|]. split; [done|].
  cbn [store]. split; [apply lookup_insert_eq|].
  rewrite (run_final_read p q) by apply lookup_insert_eq.
  by destruct (invalid_read p q).
Qed.

Lemma X10_witness :
  pointer1 (Frame (Some 4096) (Some 4096)) = Some 4096 ∧
  pointer2 (Frame (Some 4096) (Some 4096)) = Some 4096 ∧
  4096 ≠ nullptr ∧
  exec release (Frame (Some 4096) (Some 4096))
    (World (<[4096 := Live 5]> ∅) [] []) =
    Ok (Frame (Some nullptr) (Some 4096))
       (World (<[4096 := Released]> (<[4096 := Live 5]> ∅)) []
          [EvDelete 4096]) ∧
  pointer1 (Frame (Some nullptr) (Some 4096)) = Some nullptr ∧
  pointer2 (Frame (Some nullptr) (Some 4096)) = Some 4096 ∧
  <[4096 := Released]> (<[4096 := Live 5]> (∅ : heap)) !! 4096
    = Some Released ∧
  events (final_world
    (line24 checked (Frame (Some nullptr) (Some 4096))
       (World (<[4096 := Released]> (<[4096 := Live 5]> ∅)) []
          [EvDelete 4096]))) =
    [EvDelete 4096] ++ [EvLoad 25 4096 UseAfterRelease].
Proof.
  split; [reflexivity|]. split; [reflexivity|]. split; [done|].
  split; [reflexivity|].
  exact (X10_release_makes_alias_stale checked
           (Frame (Some 4096) (Some 4096)) _
           (World (<[4096 := Live 5]> ∅) [] []) _ 4096
           eq_refl eq_refl ltac:(done) eq_refl).
Defined.

End DanglingPointerLaws.

(** ** Further behaviour of unique_pointer_demo.cpp *)

Module UniquePointerDemoLaws.
Import UniquePointerDemo UniquePointerDemoSpec.

(** X4.  The whole behaviour of the program when the allocation succeeds:
    the three output lines in order, one allocation, two valid reads and
    one release, and [main] returns 0. *)
Theorem X4_main_behaviour (p : platform) (a : addr) :
  conforming p →
  operator_new p ∅ = Some a →
  main p world0 =
  Ok 0
    (World (<[a := Released]> ∅)
       [Str "pointer1 -> "; Ptr a; Str " : value = "; Int 67; Endl;
        Str ("pointer1 is now null after move" +:+ LF);
        Str "pointer2 -> "; Ptr a; Str " : value = "; Int 67; Endl]
       [EvNew a 67; EvLoad 13 a Valid; EvLoad 23 a Valid; EvDelete a]).
Proof.
  intros Hconf Hnew.
  pose proof (conforming_nonnull p ∅ a Hconf Hnew) as Hnn.
  unfold main, steps. unfold bind at 1.
  rewrite exec_app, (run_body p a Hnew).
  rewrite (run_scope_exit a) by (done || apply lookup_insert_eq).
  cbn [store cout events app]. by rewrite insert_insert_eq.
Qed.

Lemma X4_witness :
  conforming checked ∧ operator_new checked ∅ = Some 4096 ∧
  main checked world0 =
  Ok 0
    (World (<[4096 := Released]> ∅)
       [Str "pointer1 -> "; Ptr 4096; Str " : value = "; Int 67; Endl;
        Str ("pointer1 is now null after move" +:+ LF);
        Str "pointer2 -> "; Ptr 4096; Str " : value = "; Int 67; Endl]
       [EvNew 4096 67; EvLoad 13 4096 Valid; EvLoad 23 4096 Valid;
        EvDelete 4096]).
Proof.
  split; [apply arena_conforming|]. split; [reflexivity|].
  exact (X4_main_behaviour checked 4096 (arena_conforming _) eq_refl).
Defined.

(** X2.  The program never reads a cell that is not live: two platforms
    whose allocation functions answer alike give the same run, whatever
    each of them does on an invalid read. *)
Theorem X2_main_ignores_invalid_read (p p' : platform) :
  operator_new p ∅ = operator_new p' ∅ →
  main p world0 = main p' world0.
Proof.
  intros Heq. destruct (operator_new p ∅) as [a|] eqn:Hnew; symmetry in Heq.
  - unfold main, steps, body, scope_exit, line9, line12, line16, line18,
      line22, end_of_pointer2, end_of_pointer1, frame0, world0.
    destruct (decide (a = nullptr)) as [->|Hnn];
      repeat first
        [ progress mred
        | rewrite Hnew
        | rewrite Heq
        | rewrite lookup_insert_eq
        | rewrite decide_True by done
        | rewrite decide_False by (intros ?; done)
        | rewrite bool_decide_false by (intros ?; done) ];
      reflexivity.
  - unfold main, steps, body, line9, frame0, world0.
    repeat first [ progress mred | rewrite Hnew | rewrite Heq ].
    reflexivity.
Qed.

Lemma X2_witness :
  operator_new checked ∅ = operator_new plain ∅ ∧
  main checked world0 = main plain world0.
Proof.
  split; [reflexivity|].
  exact (X2_main_ignores_invalid_read checked plain eq_refl).
Defined.

(** X5.  Single ownership makes the handles safe to use: in a state that
    satisfies it, reading through any live handle that is not empty is a
    valid read of its cell, and ending that handle releases the cell
    without a trap. *)
Theorem X5_single_owner_safe
    (p : platform) (f : frame) (w : world) (u : unique_ptr) (line : nat) :
  single_owner f w →
  in_scope f u →
  get u ≠ nullptr →
  (∃ v, store w !! get u = Some (Live v) ∧
     deref p line u w =
       Ok v (World (store w) (cout w)
               (events w ++ [EvLoad line (get u) Valid]))) ∧
  destroy u w =
    Ok () (World (<[get u := Released]> (store w)) (cout w)
             (events w ++ [EvDelete (get u)])).
Proof.
  intros [_ Hheld] Hu Hnn. specialize (Hheld u Hu Hnn).
  unfold is_live in Hheld.
  destruct (store w !! get u) as [[v|]|] eqn:Hcell; [|done..].
  split.
  - exists v. split; [done|]. unfold deref, load. by rewrite Hcell.
  - unfold destroy, delete_. rewrite decide_True by done.
    rewrite decide_False by done. by rewrite Hcell.
Qed.

Lemma single_owner_after_allocation :
  single_owner (Frame (Some (UniquePtr 4096)) None)
    (World (<[4096 := Live 67]> ∅) [] []).
Proof.
  split.
  - intros a. cbn [store]. rewrite is_live_insert.
    case_decide as Ha; [subst a; by intros _|].
    unfold is_live. by rewrite lookup_empty.
  - intros u [[= <-]|[=]] _. cbn [store get]. rewrite is_live_insert.
    by rewrite decide_True.
Qed.

Lemma X5_witness :
  single_owner (Frame (Some (UniquePtr 4096)) None)
    (World (<[4096 := Live 67]> ∅) [] []) ∧
  in_scope (Frame (Some (UniquePtr 4096)) None) (UniquePtr 4096) ∧
  get (UniquePtr 4096) ≠ nullptr ∧
  (∃ v, <[4096 := Live 67]> (∅ : heap) !! 4096 = Some (Live v) ∧
     deref plain 13 (UniquePtr 4096) (World (<[4096 := Live 67]> ∅) [] []) =
       Ok v (World (<[4096 := Live 67]> ∅) [] [EvLoad 13 4096 Valid])) ∧
  destroy (UniquePtr 4096) (World (<[4096 := Live 67]> ∅) [] []) =
    Ok () (World (<[4096 := Released]> (<[4096 := Live 67]> ∅)) []
             [EvDelete 4096]).
Proof.
  pose proof single_owner_after_allocation as Hinv.
  split; [exact Hinv|]. split; [by left|]. split; [done|].
  exact (X5_single_owner_safe plain (Frame (Some (UniquePtr 4096)) None)
           (World (<[4096 := Live 67]> ∅) [] []) (UniquePtr 4096) 13
           Hinv (or_introl eq_refl) ltac:(done)).
Defined.

(** X6.  After the transfer the source handle must not be read: from any
    state with single ownership, the read [*pointer1] of line 13 run after
    the move of line 16 is an invalid access at the null address.  The
    program only tests the source handle there, and reads the
    destination. *)
Theorem X6_read_of_moved_from_handle_invalid
    (p : platform) (f f' : frame) (w w' : world) :
  single_owner f w →
  line16 f w = Ok f' w' →
  ∃ why, why ≠ Valid ∧
    events (final_world (line12 p f' w')) =
      events w' ++ [EvLoad 13 nullptr why].
Proof.
  intros [Hlive _]. unfold line16. mred.
  destruct (pointer2 f); [done|]. destruct (pointer1 f) as [u1|]; [|done].
  intros [= <- <-]. unfold line12.
  pose proof (Hlive nullptr) as Hnull. unfold is_live in Hnull.
  destruct (store w !! nullptr) as [[v|]|] eqn:Hcell.
  - by destruct Hnull.
  - exists UseAfterRelease. split; [done|]. mrun_with Hcell.
    destruct (invalid_read p nullptr); by mred.
  - exists Unallocated. split; [done|]. mrun_with Hcell.
    destruct (invalid_read p nullptr); by mred.
Qed.

Lemma X6_witness :
  single_owner (Frame (Some (UniquePtr 4096)) None)
    (World (<[4096 := Live 67]> ∅) [] []) ∧
  line16 (Frame (Some (UniquePtr 4096)) None)
    (World (<[4096 := Live 67]> ∅) [] []) =
    Ok (Frame (Some (UniquePtr nullptr)) (Some (UniquePtr 4096)))
       (World (<[4096 := Live 67]> ∅) [] []) ∧
  ∃ why, why ≠ Valid ∧
    events (final_world
      (line12 plain (Frame (Some (UniquePtr nullptr)) (Some (UniquePtr 4096)))
         (World (<[4096 := Live 67]> ∅) [] []))) =
      [] ++ [EvLoad 13 nullptr why].
Proof.
  pose proof single_owner_after_allocation as Hinv.
  split; [exact Hinv|]. split; [reflexivity|].
  exact (X6_read_of_moved_from_handle_invalid plain
           (Frame (Some (UniquePtr 4096)) None) _
           (World (<[4096 := Live 67]> ∅) [] []) _ Hinv eq_refl).
Defined.

Lemma destroy_in_scope f w u :
  single_owner f w → in_scope f u → ∃ w', destroy u w = Ok () w'.
Proof.
  intros [_ Hheld] Hu. unfold destroy, delete_.
  destruct (decide (get u ≠ nullptr)) as [Hnn|]; [|by eexists].
  specialize (Hheld u Hu Hnn). unfold is_live in Hheld.
  rewrite decide_False by done.
  destruct (store w !! get u) as [[v|]|]; [by eexists|done..].
Qed.

(** X11.  Leaving the scope cleans up whatever the handles own: from any
    state with single ownership in which both handles are alive, the two
    destructors run without a trap, no handle is left, and no cell is left
    live. *)
Theorem X11_scope_exit_releases_everything
    (f : frame) (w : world) (u1 u2 : unique_ptr) :
  single_owner f w →
  pointer1 f = Some u1 →
  pointer2 f = Some u2 →
  ∃ w', exec scope_exit f w = Ok (Frame None None) w' ∧
    ∀ b, is_live (store w') b = false.
Proof.
  intros Hinv H1 H2.
  destruct (destroy_in_scope f w u2 Hinv) as [w1 Hd2]; [by right|].
  assert (Hstep2 : end_of_pointer2 f w = Ok (Frame (Some u1) None) w1).
  { unfold end_of_pointer2. rewrite H2, H1. unfold bind, var, ret.
    by rewrite Hd2. }
  pose proof (end_of_pointer2_preserves _ _ _ _ Hinv Hstep2) as Hinv1.
  destruct (destroy_in_scope _ w1 u1 Hinv1) as [w2 Hd1]; [by left|].
  assert (Hstep1 :
    end_of_pointer1 (Frame (Some u1) None) w1 = Ok (Frame None None) w2).
  { unfold end_of_pointer1. cbn [pointer1 pointer2]. unfold bind, var, ret.
    by rewrite Hd1. }
  pose proof (end_of_pointer1_preserves _ _ _ _ Hinv1 Hstep1) as [Hlive _].
  exists w2. split.
  - unfold scope_exit. cbn [exec]. unfold bind at 1. rewrite Hstep2.
    unfold bind at 1. by rewrite Hstep1.
  - intros b. destruct (is_live (store w2) b) eqn:Hb; [|done].
    by destruct (Hlive b Hb) as [_ Hown].
Qed.

Lemma X11_witness :
  single_owner (Frame (Some (UniquePtr nullptr)) (Some (UniquePtr 4096)))
    (World (<[4096 := Live 67]> ∅) [] []) ∧
  ∃ w', exec scope_exit
          (Frame (Some (UniquePtr nullptr)) (Some (UniquePtr 4096)))
          (World (<[4096 := Live 67]> ∅) [] []) = Ok (Frame None None) w' ∧
    ∀ b, is_live (store w') b = false.
Proof.
  pose proof
    (line16_preserves _ _ _ _ single_owner_after_allocation
       (eq_refl : line16 (Frame (Some (UniquePtr 4096)) None)
                    (World (<[4096 := Live 67]> ∅) [] []) = Ok _ _)) as Hinv.
  split; [exact Hinv|].
  exact (X11_scope_exit_releases_everything _ _
           (UniquePtr nullptr) (UniquePtr 4096) Hinv eq_refl eq_refl).
Defined.

End UniquePointerDemoLaws.

(** ** What the two programs share *)

Module BothPrograms.

(** X1.  When the allocation on line 9 fails, either program ends by the
    uncaught [std::bad_alloc] with nothing printed and the free store
    untouched; no statement after line 9 runs. *)
Theorem X1_allocation_failure (p : platform) :
  operator_new p ∅ = None →
  DanglingPointer.main p world0 = Uncaught bad_alloc world0 ∧
  UniquePointerDemo.main p world0 = Uncaught bad_alloc world0 ∧
  process_end (DanglingPointer.main p world0) = Aborted ∧
  process_end (UniquePointerDemo.main p world0) = Aborted.
Proof.
  intros Hnew.
  assert (Hd : DanglingPointer.main p world0 = Uncaught bad_alloc world0).
  { unfold DanglingPointer.main, DanglingPointer.body,
      DanglingPointer.before_release, DanglingPointer.line9,
      DanglingPointer.frame0, world0.
    cbn [app]. mrun_with Hnew. reflexivity. }
  assert (Hu : UniquePointerDemo.main p world0 = Uncaught bad_alloc world0).
  { unfold UniquePointerDemo.main, UniquePointerDemo.steps,
      UniquePointerDemo.body, UniquePointerDemo.line9,
      UniquePointerDemo.frame0, world0.
    cbn [app]. mrun_with Hnew. reflexivity. }
  by rewrite Hd, Hu.
Qed.

Lemma X1_witness :
  operator_new (Platform (λ _, None) (λ _, None)) ∅ = None ∧
  DanglingPointer.main (Platform (λ _, None) (λ _, None)) world0 =
    Uncaught bad_alloc world0 ∧
  UniquePointerDemo.main (Platform (λ _, None) (λ _, None)) world0 =
    Uncaught bad_alloc world0 ∧
  process_end (DanglingPointer.main (Platform (λ _, None) (λ _, None)) world0)
    = Aborted ∧
  process_end (UniquePointerDemo.main (Platform (λ _, None) (λ _, None)) world0)
    = Aborted.
Proof.
  split; [reflexivity|].
  exact (X1_allocation_failure (Platform (λ _, None) (λ _, None)) eq_refl).
Defined.

(** X9.  The output statements only print: in every state, whenever one
    of them completes, the local variables and the free store are as they
    were before. *)
Theorem X9_output_statements_read_only (p : platform) :
  (∀ f w f' w', DanglingPointer.line13 p f w = Ok f' w' →
     f' = f ∧ store w' = store w) ∧
  (∀ f w f' w', DanglingPointer.line24 p f w = Ok f' w' →
     f' = f ∧ store w' = store w) ∧
  (∀ f w f' w', UniquePointerDemo.line12 p f w = Ok f' w' →
     f' = f ∧ store w' = store w) ∧
  (∀ f w f' w', UniquePointerDemo.line18 f w = Ok f' w' →
     f' = f ∧ store w' = store w) ∧
  (∀ f w f' w', UniquePointerDemo.line22 p f w = Ok f' w' →
     f' = f ∧ store w' = store w).
Proof.
  split; [|split; [|split; [|split]]].
  - intros f w f' w'. unfold DanglingPointer.line13. mred_ops.
    destruct (DanglingPointer.pointer1 f) as [q1|]; [|done]. cbv beta iota.
    destruct (decide (q1 ≠ nullptr)); [|by intros [= <- <-]]. mred_ops.
    match goal with |- context [load p 15 q1 ?w0] =>
      destruct (load p 15 q1 w0) as [v1 w1| |] eqn:E1; [|done..] end.
    apply UniquePointerDemoSpec.load_store in E1. cbn [store] in E1. mred_ops.
    destruct (DanglingPointer.pointer2 f) as [q2|]; [|done]. mred_ops.
    match goal with |- context [load p 16 q2 ?w0] =>
      destruct (load p 16 q2 w0) as [v2 w2| |] eqn:E2; [|done..] end.
    apply UniquePointerDemoSpec.load_store in E2. cbn [store] in E2.
    intros [= <- <-]. cbn [store]. by rewrite E2.
  - intros f w f' w'. unfold DanglingPointer.line24. mred_ops.
    destruct (DanglingPointer.pointer2 f) as [q2|]; [|done]. mred_ops.
    match goal with |- context [load p 25 q2 ?w0] =>
      destruct (load p 25 q2 w0) as [v w1| |] eqn:E; [|done..] end.
    apply UniquePointerDemoSpec.load_store in E. cbn [store] in E. by intros [= <- <-].
  - apply UniquePointerDemoSpec.line12_silent.
  - apply UniquePointerDemoSpec.line18_silent.
  - apply UniquePointerDemoSpec.line22_silent.
Qed.

End BothPrograms.
